(** * FP32 -> E9S12 pair decomposition (src/implementation.py)

    A shallow embedding of [E9S12], [E9S12.to_float] and of
    [FloatingPointEmulator.unpack_fp32] /
    [FloatingPointEmulator.fp32_to_e9s12_decomposition] and of the values
    [FloatingPointEmulator.demonstrate_decomposition] prints, followed by
    the theorems about them.

    Conventions of the embedding:
    - Python integers are unbounded, so every integer field is a [Z] and the
      bit operations are [Z.shiftr], [Z.shiftl], [Z.land], [Z.lor].
    - The argument of the emulator is the 32-bit pattern that
      [float32_to_bits] produces ([struct.pack('>f')] followed by
      [struct.unpack('>I')]); the functions below start from that pattern.
    - A Python float is modelled by [pyfloat]: the IEEE classes are kept apart
      and a finite nonzero result carries its exact rational value. *)

From Stdlib Require Import ZArith QArith Qabs Qpower Qfield Bool List Lia.

Local Open Scope Z_scope.

(** ** Python floats as far as [to_float] needs them *)

Inductive pyfloat : Type :=
| PyNaN
| PyInf (negative : bool)
| PyZero (negative : bool)
| PyFinite (value : Q).

(** Truth value of a Python [int] used as a condition. *)
Definition truthy (n : Z) : bool := negb (n =? 0).

(** The real number a float stands for; infinities and NaN stand for none. *)
Definition numeric (x : pyfloat) : option Q :=
  match x with
  | PyNaN => None
  | PyInf _ => None
  | PyZero _ => Some 0%Q
  | PyFinite v => Some v
  end.

(** ** class E9S12 *)

Module E9S12.

Record t : Type := mk {
    sign : Z;
    exponent : Z;
    significand : Z;
    is_zero : bool;
    is_inf : bool;
    is_nan : bool
  }.

Definition EXPONENT_BIAS : Z := 139.
Definition SIGNIFICAND_BITS : Z := 12.
Definition EXPONENT_BITS : Z := 9.

Definition to_float (self : t) : pyfloat :=
    if is_zero self then PyZero (truthy (sign self))
    else if is_inf self then PyInf (truthy (sign self))
    else if is_nan self then PyNaN
    else
      let unbiased_exp := exponent self - EXPONENT_BIAS in
      let significand_value :=
        (inject_Z (significand self)
           / inject_Z (2 ^ (SIGNIFICAND_BITS - 1)))%Q in
      let value := (significand_value * (2 # 1) ^ unbiased_exp)%Q in
      PyFinite (if truthy (sign self) then (- value)%Q else value).

End E9S12.

(** ** class FloatingPointEmulator *)

(** The [flags] dictionary of [unpack_fp32]: always the same four keys. *)
Module Flags.

Record t : Type := mk {
    is_zero : bool;
    is_inf : bool;
    is_nan : bool;
    is_subnormal : bool
  }.

End Flags.

Module FloatingPointEmulator.

Definition unpack_fp32 (bits : Z) : Z * Z * Z * Flags.t :=
    let sign := Z.land (Z.shiftr bits 31) 1 in
    let exponent := Z.land (Z.shiftr bits 23) 0xFF in
    let fraction := Z.land bits 0x7FFFFF in
    let is_zero := (exponent =? 0) && (fraction =? 0) in
    let is_inf := (exponent =? 0xFF) && (fraction =? 0) in
    let is_nan := (exponent =? 0xFF) && negb (fraction =? 0) in
    let is_subnormal := (exponent =? 0) && negb (fraction =? 0) in
    let significand :=
      if exponent =? 0 then Z.shiftl fraction 1
      else Z.lor (Z.shiftl 1 23) fraction in
    let flags := Flags.mk is_zero is_inf is_nan is_subnormal in
    (sign, exponent, significand, flags).

  (** Lines 89-90: the two 12-bit limbs of the significand. *)
Definition split_sig (sig : Z) : Z * Z :=
    (Z.land (Z.shiftr sig 12) 0xFFF, Z.land sig 0xFFF).

Definition fp32_to_e9s12_decomposition (bits : Z) : E9S12.t * E9S12.t :=
    let '(sign, exp, sig, flags) := unpack_fp32 bits in
    if Flags.is_zero flags then
      (E9S12.mk sign 0 0 true false false, E9S12.mk sign 0 0 true false false)
    else if Flags.is_inf flags then
      (E9S12.mk sign 511 0 false true false, E9S12.mk sign 0 0 true false false)
    else if Flags.is_nan flags then
      (E9S12.mk sign 511 1 false false true, E9S12.mk sign 0 0 true false false)
    else
      let '(sig_h, sig_l) := split_sig sig in
      let exp_h := exp + 12 in
      let exp_l := exp in
      let u_h := E9S12.mk sign exp_h sig_h (sig_h =? 0) false false in
      let u_l := E9S12.mk sign exp_l sig_l (sig_l =? 0) false false in
      (u_h, u_l).

End FloatingPointEmulator.

Import FloatingPointEmulator.

(** ** The binary32 layout, stated arithmetically

    These are the fields of an IEEE-754 single-precision pattern written with
    division and remainder, independently of the shifts and masks used by
    [unpack_fp32]; the theorems relate the code to them. *)

Definition sign_field (bits : Z) : Z := (bits / 2 ^ 31) mod 2.
Definition exp_field (bits : Z) : Z := (bits / 2 ^ 23) mod 2 ^ 8.
Definition frac_field (bits : Z) : Z := bits mod 2 ^ 23.

Definition is_normal (bits : Z) : Prop := 1 <= exp_field bits <= 254.

(** Value of a finite binary32 pattern: [(-1)^s * 1.f * 2^(e-127)] for a
    normal one, [(-1)^s * 0.f * 2^-126] for a zero or subnormal one. *)
Definition fp32_value (bits : Z) : Q :=
  let m :=
    if exp_field bits =? 0
    then (inject_Z (frac_field bits) * (2 # 1) ^ (-149))%Q
    else (inject_Z (2 ^ 23 + frac_field bits)
            * (2 # 1) ^ (exp_field bits - 150))%Q in
  if sign_field bits =? 0 then m else (- m)%Q.

(** Relative error of an approximation [y] of [x]. *)
Definition rel_error (x y : Q) : Q := (Qabs (x - y) / Qabs x)%Q.

(** The two results of a decomposition. *)
Definition high (bits : Z) : E9S12.t :=
  fst (fp32_to_e9s12_decomposition bits).
Definition low (bits : Z) : E9S12.t :=
  snd (fp32_to_e9s12_decomposition bits).

(** ** Auxiliary definitions used by the statements *)

(** The components of the tuple returned by [unpack_fp32]. *)
Definition exponent_of (bits : Z) : Z := snd (fst (fst (unpack_fp32 bits))).
Definition significand_of (bits : Z) : Z := snd (fst (unpack_fp32 bits)).
Definition flags_of (bits : Z) : Flags.t := snd (unpack_fp32 bits).

Definition count_true (l : list bool) : nat := length (filter (fun b => b) l).

Definition class_flags (fl : Flags.t) : list bool :=
  Flags.is_zero fl :: Flags.is_subnormal fl :: Flags.is_inf fl
    :: Flags.is_nan fl :: nil.

(** A part flagged zero with the canonical fields. *)
Definition zero_part (s : Z) : E9S12.t := E9S12.mk s 0 0 true false false.

(** The 24-bit significand [unpack_fp32] hands to the split. *)
Definition sig24 (bits : Z) : Z :=
  if exp_field bits =? 0 then 2 * frac_field bits
  else 2 ^ 23 + frac_field bits.

(** *** Flags and encodings of an [E9S12] value *)

Definition flag_count (u : E9S12.t) : nat :=
  count_true (E9S12.is_zero u :: E9S12.is_inf u :: E9S12.is_nan u :: nil).

(** The class encodings: zero is [(0, 0)], infinity [(511, 0)], NaN
    [(511, 1)] in (exponent, significand). *)
Definition canonical (u : E9S12.t) : Prop :=
  (flag_count u <= 1)%nat
  /\ (E9S12.is_zero u = true ->
      E9S12.exponent u = 0 /\ E9S12.significand u = 0)
  /\ (E9S12.is_inf u = true ->
      E9S12.exponent u = 511 /\ E9S12.significand u = 0)
  /\ (E9S12.is_nan u = true ->
      E9S12.exponent u = 511 /\ E9S12.significand u = 1).

(** The same with the exponent of a zero-flagged part left free. *)
Definition canonical_up_to_zero_exponent (u : E9S12.t) : Prop :=
  (flag_count u <= 1)%nat
  /\ (E9S12.is_zero u = true -> E9S12.significand u = 0)
  /\ (E9S12.is_inf u = true ->
      E9S12.exponent u = 511 /\ E9S12.significand u = 0)
  /\ (E9S12.is_nan u = true ->
      E9S12.exponent u = 511 /\ E9S12.significand u = 1).

(** Zero, infinity or NaN input: the three early returns of lines 79-84. *)
Definition is_special (bits : Z) : bool :=
  (exp_field bits =? 255)
  || ((exp_field bits =? 0) && (frac_field bits =? 0)).

(** [v] or [-v] by the sign field, as the last line of [to_float] does. *)
Definition with_sign (s : Z) (v : Q) : Q := if truthy s then (- v)%Q else v.

(** A rational that a binary64 float holds exactly: an integer below [2^53]
    in magnitude times a power of two within the format's exponent range.
    IEEE-754 arithmetic returns the exact result whenever it is of this
    form, which is what makes the rational reading of [to_float] faithful
    on the values met here. *)
Definition binary64_exact (q : Q) : Prop :=
  exists m e : Z,
    Z.abs m < 2 ^ 53 /\ -1074 <= e <= 971
    /\ (q == inject_Z m * (2 # 1) ^ e)%Q.

(** ** The demonstration: [demonstrate_decomposition]

    The arithmetic of Python floats that lines 116-119 use, on [pyfloat].
    Sums of finite values are taken exactly; IEEE-754 addition returns the
    exact sum whenever binary64 holds it, which is the case for every sum
    formed from the parts of a decomposition (all of them are
    [binary64_exact]). An exact sum of zero is [+0.0], as in the default
    rounding mode. *)

Definition py_neg (x : pyfloat) : pyfloat :=
  match x with
  | PyNaN => PyNaN
  | PyInf n => PyInf (negb n)
  | PyZero n => PyZero (negb n)
  | PyFinite v => PyFinite (- v)%Q
  end.

Definition py_abs (x : pyfloat) : pyfloat :=
  match x with
  | PyNaN => PyNaN
  | PyInf _ => PyInf false
  | PyZero _ => PyZero false
  | PyFinite v => PyFinite (Qabs v)
  end.

Definition py_add (x y : pyfloat) : pyfloat :=
  match x, y with
  | PyNaN, _ | _, PyNaN => PyNaN
  | PyInf a, PyInf b => if Bool.eqb a b then PyInf a else PyNaN
  | PyInf a, _ => PyInf a
  | _, PyInf b => PyInf b
  | PyZero a, PyZero b => PyZero (a && b)
  | PyZero _, PyFinite v => PyFinite v
  | PyFinite v, PyZero _ => PyFinite v
  | PyFinite v, PyFinite w =>
      if Qeq_bool (v + w) 0 then PyZero false else PyFinite (v + w)%Q
  end.

Definition py_sub (x y : pyfloat) : pyfloat := py_add x (py_neg y).

(** [x == y] on floats: NaN equals nothing, the two zeros are equal. *)
Definition py_eq (x y : pyfloat) : bool :=
  match x, y with
  | PyNaN, _ | _, PyNaN => false
  | PyInf a, PyInf b => Bool.eqb a b
  | PyInf _, _ | _, PyInf _ => false
  | _, _ =>
      match numeric x, numeric y with
      | Some v, Some w => Qeq_bool v w
      | _, _ => false
      end
  end.

Definition py_ne (x y : pyfloat) : bool := negb (py_eq x y).

(** The float32 argument of the emulator, read back from its pattern: the
    inverse of [float32_to_bits]. *)
Definition fp32_float (bits : Z) : pyfloat :=
  if exp_field bits =? 255 then
    if frac_field bits =? 0 then PyInf (truthy (sign_field bits)) else PyNaN
  else if (exp_field bits =? 0) && (frac_field bits =? 0) then
    PyZero (truthy (sign_field bits))
  else PyFinite (fp32_value bits).

(** What [demonstrate_decomposition] prints, before formatting: the two
    parts, their sum, and the error when line 118 lets it through. *)
Record report : Type := mk_report {
  shown_high : E9S12.t;
  shown_low : E9S12.t;
  reconstructed : pyfloat;
  error : option pyfloat
}.

Definition demonstrate_decomposition (bits : Z) : report :=
  let value := fp32_float bits in
  let '(u_h, u_l) := fp32_to_e9s12_decomposition bits in
  let reconstructed := py_add (E9S12.to_float u_h) (E9S12.to_float u_l) in
  let error :=
    if py_ne value (PyZero false)
       && py_ne value (PyInf false)
       && py_ne value (py_neg (PyInf false))
    then Some (py_abs (py_sub value reconstructed))
    else None in
  mk_report u_h u_l reconstructed error.

(** Two floats that print alike: the same class and sign, and for finite
    values the same number. *)
Definition py_same (x y : pyfloat) : Prop :=
  match x, y with
  | PyNaN, PyNaN => True
  | PyInf a, PyInf b => a = b
  | PyZero a, PyZero b => a = b
  | PyFinite v, PyFinite w => (v == w)%Q /\ ~ (v == 0)%Q
  | _, _ => False
  end.

(** The class of a pattern, for the statements below. *)
Definition is_nan_pattern (bits : Z) : Prop :=
  exp_field bits = 255 /\ frac_field bits <> 0.

(** The three quantities [to_float] computes on lines 29-31 for a part
    without flags, each of them held exactly by a binary64 float. *)
Definition steps_exact (u : E9S12.t) : Prop :=
  let unbiased_exp := E9S12.exponent u - E9S12.EXPONENT_BIAS in
  let significand_value :=
    (inject_Z (E9S12.significand u)
       / inject_Z (2 ^ (E9S12.SIGNIFICAND_BITS - 1)))%Q in
  binary64_exact significand_value
  /\ binary64_exact ((2 # 1) ^ unbiased_exp)
  /\ binary64_exact (significand_value * (2 # 1) ^ unbiased_exp).

(** * Proofs *)

(** ** The demonstration values of [main], evaluated *)

Example decompose_pi :
  fp32_to_e9s12_decomposition 0x40490FDB
    = (E9S12.mk 0 140 0xC90 false false false,
       E9S12.mk 0 128 0xFDB false false false).
Proof. vm_compute. reflexivity. Qed.

Example decompose_one :
  unpack_fp32 0x3F800000 = (0, 127, 8388608, Flags.mk false false false false)
  /\ fp32_to_e9s12_decomposition 0x3F800000
     = (E9S12.mk 0 139 2048 false false false,
        E9S12.mk 0 127 0 true false false)
  /\ E9S12.to_float (high 0x3F800000) = PyFinite (2048 # 2048)
  /\ E9S12.to_float (low 0x3F800000) = PyZero false.
Proof. repeat split; vm_compute; reflexivity. Qed.

Example decompose_smallest_subnormal :
  unpack_fp32 0x00000001 = (0, 0, 2, Flags.mk false false false true)
  /\ fp32_to_e9s12_decomposition 0x00000001
     = (E9S12.mk 0 12 0 true false false,
        E9S12.mk 0 0 2 false false false).
Proof. split; vm_compute; reflexivity. Qed.

Example decompose_plus_infinity :
  fp32_to_e9s12_decomposition 0x7F800000
    = (E9S12.mk 0 511 0 false true false, E9S12.mk 0 0 0 true false false)
  /\ E9S12.to_float (high 0x7F800000) = PyInf false.
Proof. split; vm_compute; reflexivity. Qed.

Example decompose_quiet_nan :
  fp32_to_e9s12_decomposition 0x7FC00000
    = (E9S12.mk 0 511 1 false false true, E9S12.mk 0 0 0 true false false)
  /\ E9S12.to_float (high 0x7FC00000) = PyNaN.
Proof. split; vm_compute; reflexivity. Qed.

(** ** The masks and shifts of [unpack_fp32] read the binary32 fields *)

Section Fields.

Variable bits : Z.

Lemma sign_bits : Z.land (Z.shiftr bits 31) 1 = sign_field bits.
  Proof.
    unfold sign_field. rewrite Z.shiftr_div_pow2 by lia.
    change 1 with (Z.ones 1). now rewrite Z.land_ones by lia.
  Qed.

Lemma exponent_bits : Z.land (Z.shiftr bits 23) 0xFF = exp_field bits.
  Proof.
    unfold exp_field. rewrite Z.shiftr_div_pow2 by lia.
    change 0xFF with (Z.ones 8). now rewrite Z.land_ones by lia.
  Qed.

Lemma fraction_bits : Z.land bits 0x7FFFFF = frac_field bits.
  Proof.
    unfold frac_field. change 0x7FFFFF with (Z.ones 23).
    now rewrite Z.land_ones by lia.
  Qed.

Lemma sign_field_range : 0 <= sign_field bits <= 1.
  Proof.
    unfold sign_field. pose proof (Z.mod_pos_bound (bits / 2 ^ 31) 2). lia.
  Qed.

Lemma exp_field_range : 0 <= exp_field bits <= 255.
  Proof.
    unfold exp_field. pose proof (Z.mod_pos_bound (bits / 2 ^ 23) (2 ^ 8)). lia.
  Qed.

Lemma frac_field_range : 0 <= frac_field bits < 2 ^ 23.
  Proof. unfold frac_field. apply Z.mod_pos_bound. lia. Qed.

  (** Setting bit 23 of a 23-bit fraction adds [2^23] to it. *)
Lemma implicit_bit :
    Z.lor (Z.shiftl 1 23) (frac_field bits) = 2 ^ 23 + frac_field bits.
  Proof.
    assert (D : Z.land (2 ^ 23) (frac_field bits) = 0).
    { apply Z.bits_inj'. intros n Hn.
      rewrite Z.land_spec, Z.bits_0, Z.pow2_bits_eqb by lia.
      destruct (Z.eqb_spec 23 n) as [<- | Hne]; [ | reflexivity ].
      unfold frac_field. rewrite Z.mod_pow2_bits_high by lia. reflexivity. }
    rewrite Z.shiftl_1_l.
    rewrite <- (Z.lxor_lor _ _ D). symmetry. now apply Z.add_nocarry_lxor.
  Qed.

  (** [unpack_fp32] in terms of the fields. *)
Lemma unpack_fp32_fields :
    unpack_fp32 bits =
      (sign_field bits, exp_field bits,
       (if exp_field bits =? 0 then 2 * frac_field bits
        else 2 ^ 23 + frac_field bits),
       Flags.mk ((exp_field bits =? 0) && (frac_field bits =? 0))
                ((exp_field bits =? 255) && (frac_field bits =? 0))
                ((exp_field bits =? 255) && negb (frac_field bits =? 0))
                ((exp_field bits =? 0) && negb (frac_field bits =? 0))).
  Proof.
    unfold unpack_fp32.
    rewrite sign_bits, exponent_bits, fraction_bits, implicit_bit.
    rewrite Z.shiftl_mul_pow2 by lia.
    replace (frac_field bits * 2 ^ 1) with (2 * frac_field bits) by lia.
    reflexivity.
  Qed.

End Fields.

(** ** The 12-bit limbs *)

Lemma split_sig_div_mod (sig : Z) :
  split_sig sig = ((sig / 2 ^ 12) mod 2 ^ 12, sig mod 2 ^ 12).
Proof.
  unfold split_sig. change 0xFFF with (Z.ones 12).
  now rewrite !Z.land_ones, Z.shiftr_div_pow2 by lia.
Qed.

Lemma split_sig_range (sig : Z) :
  0 <= fst (split_sig sig) <= 0xFFF /\ 0 <= snd (split_sig sig) <= 0xFFF.
Proof.
  rewrite split_sig_div_mod. cbn [fst snd].
  pose proof (Z.mod_pos_bound (sig / 2 ^ 12) (2 ^ 12)).
  pose proof (Z.mod_pos_bound sig (2 ^ 12)). lia.
Qed.

Lemma split_sig_sum (sig : Z) :
  0 <= sig < 2 ^ 24 ->
  fst (split_sig sig) * 2 ^ 12 + snd (split_sig sig) = sig.
Proof.
  intros H. rewrite split_sig_div_mod. cbn [fst snd].
  rewrite (Z.mod_small (sig / 2 ^ 12)).
  - pose proof (Z.div_mod sig (2 ^ 12)). lia.
  - split; [ apply Z.div_pos; lia | apply Z.div_lt_upper_bound; lia ].
Qed.

(** ** The decomposition, case by case on the fields *)

Lemma sig24_range (bits : Z) : 0 <= sig24 bits < 2 ^ 24.
Proof.
  unfold sig24. pose proof (frac_field_range bits).
  destruct (exp_field bits =? 0); lia.
Qed.

Lemma decomposition_fields (bits : Z) :
  fp32_to_e9s12_decomposition bits =
    let s := sign_field bits in
    let e := exp_field bits in
    let f := frac_field bits in
    if (e =? 0) && (f =? 0) then (zero_part s, zero_part s)
    else if (e =? 255) && (f =? 0) then
      (E9S12.mk s 511 0 false true false, zero_part s)
    else if (e =? 255) && negb (f =? 0) then
      (E9S12.mk s 511 1 false false true, zero_part s)
    else
      let sig_h := fst (split_sig (sig24 bits)) in
      let sig_l := snd (split_sig (sig24 bits)) in
      (E9S12.mk s (e + 12) sig_h (sig_h =? 0) false false,
       E9S12.mk s e sig_l (sig_l =? 0) false false).
Proof.
  unfold fp32_to_e9s12_decomposition. rewrite unpack_fp32_fields.
  cbn [Flags.is_zero Flags.is_inf Flags.is_nan]. fold (sig24 bits).
  destruct (split_sig (sig24 bits)) as [sig_h sig_l]. reflexivity.
Qed.

(** Inputs with exponent field 255: infinities and NaNs. *)
Lemma decomposition_exp255 (bits : Z) :
  exp_field bits = 255 ->
  fp32_to_e9s12_decomposition bits =
    if frac_field bits =? 0
    then (E9S12.mk (sign_field bits) 511 0 false true false,
          zero_part (sign_field bits))
    else (E9S12.mk (sign_field bits) 511 1 false false true,
          zero_part (sign_field bits)).
Proof.
  intros E. rewrite decomposition_fields. cbv zeta. rewrite E.
  destruct (frac_field bits =? 0); reflexivity.
Qed.

(** Inputs that reach the split of lines 89-100. *)
Lemma decomposition_finite (bits : Z) :
  exp_field bits <> 255 ->
  ~ (exp_field bits = 0 /\ frac_field bits = 0) ->
  fp32_to_e9s12_decomposition bits =
    (E9S12.mk (sign_field bits) (exp_field bits + 12)
       (fst (split_sig (sig24 bits)))
       (fst (split_sig (sig24 bits)) =? 0) false false,
     E9S12.mk (sign_field bits) (exp_field bits)
       (snd (split_sig (sig24 bits)))
       (snd (split_sig (sig24 bits)) =? 0) false false).
Proof.
  intros H255 Hz. rewrite decomposition_fields. cbv zeta.
  destruct (Z.eqb_spec (exp_field bits) 0) as [E0 | E0];
    destruct (Z.eqb_spec (frac_field bits) 0) as [F0 | F0];
    destruct (Z.eqb_spec (exp_field bits) 255) as [E255 | E255];
    cbn [andb negb]; try reflexivity; try contradiction; tauto.
Qed.

(** The upper limb of a normal significand holds the implicit bit. *)
Lemma normal_sig_h (bits : Z) :
  is_normal bits -> 0x800 <= fst (split_sig (sig24 bits)) <= 0xFFF.
Proof.
  intros N. unfold is_normal in N. unfold sig24.
  destruct (Z.eqb_spec (exp_field bits) 0) as [E0 | _]; [ lia | ].
  rewrite split_sig_div_mod. cbn [fst].
  pose proof (frac_field_range bits) as F.
  assert (L : 2 ^ 11 <= (2 ^ 23 + frac_field bits) / 2 ^ 12 < 2 ^ 12).
  { split; [ apply Z.div_le_lower_bound | apply Z.div_lt_upper_bound ]; lia. }
  rewrite Z.mod_small by lia. lia.
Qed.

(** C3. [unpack_fp32] computes each flag by its rule on the exponent and
    fraction fields (zero: 0/0, subnormal: 0/nonzero, infinity: 255/0,
    NaN: 255/nonzero); the rules exclude one another, so at most one flag is
    set, and no flag is set exactly for the normal patterns (exponent field
    between 1 and 254). *)
Theorem unpack_fp32_classification (bits : Z) :
  let fl := flags_of bits in
  let e := exp_field bits in
  let f := frac_field bits in
  exponent_of bits = e
  /\ (Flags.is_zero fl = true <-> e = 0 /\ f = 0)
  /\ (Flags.is_subnormal fl = true <-> e = 0 /\ f <> 0)
  /\ (Flags.is_inf fl = true <-> e = 255 /\ f = 0)
  /\ (Flags.is_nan fl = true <-> e = 255 /\ f <> 0)
  /\ (count_true (class_flags fl) <= 1)%nat
  /\ (count_true (class_flags fl) = 0%nat <-> is_normal bits).
Proof.
  unfold flags_of, exponent_of, is_normal. rewrite unpack_fp32_fields.
  cbn [fst snd Flags.is_zero Flags.is_inf Flags.is_nan Flags.is_subnormal
       class_flags].
  pose proof (exp_field_range bits) as R.
  destruct (Z.eqb_spec (exp_field bits) 0) as [E0 | E0];
    destruct (Z.eqb_spec (exp_field bits) 255) as [E255 | E255];
    destruct (Z.eqb_spec (frac_field bits) 0) as [F0 | F0];
    cbn; repeat split; intros; try lia; try discriminate; try tauto.
Qed.

(** C4. The significand returned by [unpack_fp32] is the fraction field
    shifted left by one when the exponent field is 0, and the fraction field
    with bit 23 set otherwise; in numbers [2 * fraction] and
    [2^23 + fraction], a 24-bit value in both cases. *)
Theorem unpack_fp32_significand (bits : Z) :
  let f := frac_field bits in
  significand_of bits
    = (if exp_field bits =? 0 then Z.shiftl f 1 else Z.setbit f 23)
  /\ significand_of bits
    = (if exp_field bits =? 0 then 2 * f else 2 ^ 23 + f)
  /\ (exp_field bits =? 0) || Z.testbit (significand_of bits) 23 = true
  /\ 0 <= significand_of bits < 2 ^ 24.
Proof.
  cbv zeta. unfold significand_of. rewrite unpack_fp32_fields. cbn [fst snd].
  pose proof (frac_field_range bits) as F.
  assert (S23 : Z.setbit (frac_field bits) 23 = 2 ^ 23 + frac_field bits).
  { unfold Z.setbit. rewrite Z.lor_comm. apply implicit_bit. }
  rewrite S23, Z.shiftl_mul_pow2 by lia.
  destruct (Z.eqb_spec (exp_field bits) 0) as [E0 | E0]; cbn [orb].
  - repeat split; lia.
  - repeat split; try lia.
    rewrite <- S23. apply Z.setbit_eq. lia.
Qed.

(** C5. Splitting a 24-bit significand into [sig_h = (sig >> 12) & 0xFFF]
    and [sig_l = sig & 0xFFF] loses nothing: [(sig_h << 12) | sig_l] is
    [sig] again, as integers. *)
Theorem split_sig_roundtrip (sig : Z) :
  0 <= sig < 2 ^ 24 ->
  let '(sig_h, sig_l) := split_sig sig in
  Z.lor (Z.shiftl sig_h 12) sig_l = sig.
Proof.
  intros R. unfold split_sig. change 0xFFF with (Z.ones 12).
  apply Z.bits_inj'. intros n Hn.
  rewrite Z.lor_spec, !Z.land_spec.
  destruct (Z.ltb_spec n 12) as [Lo | Hi].
  - rewrite Z.shiftl_spec_low by lia.
    rewrite Z.ones_spec_low by lia. cbn [orb]. apply andb_true_r.
  - rewrite Z.shiftl_spec, Z.land_spec, Z.shiftr_spec by lia.
    replace (n - 12 + 12) with n by lia.
    rewrite (Z.ones_spec_high 12 n) by lia. rewrite andb_false_r, orb_false_r.
    destruct (Z.ltb_spec n 24) as [Mid | Top].
    + rewrite Z.ones_spec_low by lia. apply andb_true_r.
    + rewrite Z.ones_spec_high by lia. rewrite andb_false_r. symmetry.
      destruct (Z.eq_dec sig 0) as [-> | NZ]; [ apply Z.bits_0 | ].
      apply Z.bits_above_log2; [ lia | ].
      apply Z.lt_le_trans with 24; [ | lia ].
      apply Z.log2_lt_pow2; lia.
Qed.

Lemma split_sig_roundtrip_witness :
  0 <= 0xC90FDB < 2 ^ 24
  /\ Z.lor (Z.shiftl (fst (split_sig 0xC90FDB)) 12) (snd (split_sig 0xC90FDB))
     = 0xC90FDB.
Proof.
  split; [ lia | ]. exact (split_sig_roundtrip 0xC90FDB ltac:(lia)).
Defined.

(** C6. [+0.0] (pattern [0x00000000]) decomposes into two zero-flagged
    parts with sign 0, exponent 0 and significand 0; [-0.0] (pattern
    [0x80000000]) into the same two parts with sign 1. *)
Theorem decompose_zero :
  fp32_to_e9s12_decomposition 0x00000000
    = (E9S12.mk 0 0 0 true false false, E9S12.mk 0 0 0 true false false)
  /\ fp32_to_e9s12_decomposition 0x80000000
    = (E9S12.mk 1 0 0 true false false, E9S12.mk 1 0 0 true false false).
Proof. split; vm_compute; reflexivity. Qed.

(** C7. A pattern with exponent field 255 decomposes by its fraction: for an
    infinity (fraction 0) the high part is [(sign, 511, 0)] flagged [is_inf],
    for a NaN (fraction nonzero) it is [(sign, 511, 1)] flagged [is_nan];
    the low part is in both cases the zero-flagged [(sign, 0, 0)], and
    [sign] is the sign bit of the input. *)
Theorem decompose_inf_nan (bits : Z) :
  exp_field bits = 255 ->
  fp32_to_e9s12_decomposition bits =
    if frac_field bits =? 0
    then (E9S12.mk (sign_field bits) 511 0 false true false,
          E9S12.mk (sign_field bits) 0 0 true false false)
    else (E9S12.mk (sign_field bits) 511 1 false false true,
          E9S12.mk (sign_field bits) 0 0 true false false).
Proof.
  intros E. exact (decomposition_exp255 bits E).
Qed.

Lemma decompose_inf_nan_witness :
  exp_field 0xFF800000 = 255
  /\ fp32_to_e9s12_decomposition 0xFF800000
     = (E9S12.mk 1 511 0 false true false, E9S12.mk 1 0 0 true false false).
Proof.
  split; [ reflexivity | ].
  exact (decompose_inf_nan 0xFF800000 eq_refl).
Defined.

(** C8. Whatever the input, both parts fit their fields: exponent in
    [0, 511] and significand in [0, 0xFFF]. The source exponent is at most
    255, so the shifted exponent of the high part is at most 267. *)
Theorem decompose_field_widths (bits : Z) :
  let h := high bits in
  let l := low bits in
  0 <= E9S12.exponent h <= 511 /\ 0 <= E9S12.significand h <= 0xFFF
  /\ 0 <= E9S12.exponent l <= 511 /\ 0 <= E9S12.significand l <= 0xFFF
  /\ exponent_of bits + 12 <= 267.
Proof.
  cbv zeta. unfold high, low, exponent_of.
  rewrite decomposition_fields, unpack_fp32_fields. cbv zeta. cbn [fst snd].
  pose proof (exp_field_range bits) as R.
  pose proof (split_sig_range (sig24 bits)) as S.
  destruct ((exp_field bits =? 0) && (frac_field bits =? 0));
    [ cbn; lia | ].
  destruct ((exp_field bits =? 255) && (frac_field bits =? 0));
    [ cbn; lia | ].
  destruct ((exp_field bits =? 255) && negb (frac_field bits =? 0));
    [ cbn; lia | ].
  cbn [fst snd E9S12.exponent E9S12.significand]. lia.
Qed.

(** C9. For a finite nonzero input, normal or subnormal, both parts carry
    the sign bit of the input. *)
Theorem decompose_sign (bits : Z) :
  exp_field bits <> 255 ->
  ~ (exp_field bits = 0 /\ frac_field bits = 0) ->
  E9S12.sign (high bits) = sign_field bits
  /\ E9S12.sign (low bits) = sign_field bits.
Proof.
  intros Fin NZ. unfold high, low.
  rewrite (decomposition_finite bits Fin NZ). split; reflexivity.
Qed.

Lemma decompose_sign_witness :
  exp_field 0xC02DF854 <> 255
  /\ ~ (exp_field 0xC02DF854 = 0 /\ frac_field 0xC02DF854 = 0)
  /\ E9S12.sign (high 0xC02DF854) = 1
  /\ E9S12.sign (low 0xC02DF854) = 1.
Proof.
  assert (Fin : exp_field 0xC02DF854 <> 255) by (vm_compute; discriminate).
  assert (NZ : ~ (exp_field 0xC02DF854 = 0 /\ frac_field 0xC02DF854 = 0))
    by (vm_compute; intros [E _]; discriminate E).
  split; [ exact Fin | split; [ exact NZ | ] ].
  exact (decompose_sign 0xC02DF854 Fin NZ).
Defined.

(** C10 (amended). For a normal input the high part is not zero-flagged
    and its significand has the top bit of the 12-bit limb set,
    [0x800 <= sig_h <= 0xFFF]. A zero-flagged high part can only arise from
    a subnormal input or from a zero input. *)
Theorem decompose_normal_high :
  (forall bits, is_normal bits ->
     E9S12.is_zero (high bits) = false
     /\ 0x800 <= E9S12.significand (high bits) <= 0xFFF
     /\ Z.testbit (E9S12.significand (high bits)) 11 = true)
  /\ (forall bits, E9S12.is_zero (high bits) = true ->
       Flags.is_subnormal (flags_of bits) = true
       \/ Flags.is_zero (flags_of bits) = true).
Proof.
  split.
  - intros bits Hn. pose proof (normal_sig_h bits Hn) as B.
    unfold is_normal in Hn. unfold high.
    rewrite decomposition_finite by lia.
    cbn [fst E9S12.is_zero E9S12.significand].
    split; [ apply Z.eqb_neq; lia | split; [ exact B | ] ].
    set (h := fst (split_sig (sig24 bits))) in *.
    rewrite Z.testbit_true by lia.
    assert (D : h / 2 ^ 11 = 1).
    { symmetry. apply (Z.div_unique h (2 ^ 11) 1 (h - 2 ^ 11)); lia. }
    rewrite D. reflexivity.
  - intros bits Hz. unfold flags_of. rewrite unpack_fp32_fields.
    cbn [snd Flags.is_subnormal Flags.is_zero].
    pose proof (exp_field_range bits) as R.
    destruct (Z.eqb_spec (exp_field bits) 0) as [E0 | E0].
    + destruct (frac_field bits =? 0); cbn; tauto.
    + exfalso. unfold high in Hz.
      destruct (Z.eq_dec (exp_field bits) 255) as [E255 | E255].
      * rewrite decomposition_exp255 in Hz by exact E255.
        destruct (frac_field bits =? 0); discriminate Hz.
      * assert (N : is_normal bits) by (unfold is_normal; lia).
        pose proof (normal_sig_h bits N) as B.
        rewrite decomposition_finite in Hz by lia.
        cbn [fst E9S12.is_zero] in Hz. apply Z.eqb_eq in Hz. lia.
Qed.

(** C10 as stated fails in its last clause. [+0.0] (pattern [0x00000000])
    is not subnormal, and its high part is zero-flagged by the early return
    of line 80. *)
Lemma zero_flagged_high_of_zero :
  E9S12.is_zero (high 0x00000000) = true
  /\ Flags.is_subnormal (flags_of 0x00000000) = false
  /\ ~ (forall bits, E9S12.is_zero (high bits) = true ->
          Flags.is_subnormal (flags_of bits) = true).
Proof.
  split; [ reflexivity | split; [ reflexivity | ] ].
  intros H. specialize (H 0x00000000 eq_refl). discriminate H.
Qed.

(** ** Flags and encodings of the two parts *)

Lemma canonical_zero_part (s : Z) : canonical (zero_part s).
Proof. unfold canonical. cbn. repeat split; try lia; discriminate. Qed.

Lemma canonical_inf_part (s : Z) :
  canonical (E9S12.mk s 511 0 false true false).
Proof. unfold canonical. cbn. repeat split; try lia; discriminate. Qed.

Lemma canonical_nan_part (s : Z) :
  canonical (E9S12.mk s 511 1 false false true).
Proof. unfold canonical. cbn. repeat split; try lia; discriminate. Qed.

Lemma canonical_weaken (u : E9S12.t) :
  canonical u -> canonical_up_to_zero_exponent u.
Proof.
  unfold canonical, canonical_up_to_zero_exponent.
  intros (C & Z0 & I & N). repeat split; tauto.
Qed.

Lemma limb_up_to_zero_exponent (s e m : Z) :
  canonical_up_to_zero_exponent (E9S12.mk s e m (m =? 0) false false).
Proof.
  unfold canonical_up_to_zero_exponent, flag_count.
  cbn [E9S12.is_zero E9S12.is_inf E9S12.is_nan E9S12.exponent
       E9S12.significand].
  destruct (Z.eqb_spec m 0) as [M | M]; cbn; repeat split;
    try lia; discriminate.
Qed.

(** C2 (amended). In each part at most one of [is_zero],
    [is_inf], [is_nan] is set; an infinity part is [(511, 0)], a NaN part
    [(511, 1)], and a zero-flagged part has significand 0. Its exponent is 0
    when the input is a zero, an infinity or a NaN; for a finite nonzero
    input every part keeps the exponent of the split, source exponent plus
    12 for the high part and source exponent for the low part, zero-flagged
    or not. *)
Theorem decompose_flags (bits : Z) :
  canonical_up_to_zero_exponent (high bits)
  /\ canonical_up_to_zero_exponent (low bits)
  /\ (if is_special bits
      then canonical (high bits) /\ canonical (low bits)
      else E9S12.exponent (high bits) = exp_field bits + 12
           /\ E9S12.exponent (low bits) = exp_field bits).
Proof.
  unfold high, low, is_special.
  destruct (Z.eqb_spec (exp_field bits) 255) as [E255 | E255].
  - rewrite (decomposition_exp255 bits E255). cbn [orb].
    pose proof (canonical_zero_part (sign_field bits)) as C.
    pose proof (canonical_inf_part (sign_field bits)) as HI.
    pose proof (canonical_nan_part (sign_field bits)) as HN.
    destruct (frac_field bits =? 0); cbn [fst snd];
      auto using canonical_weaken.
  - cbn [orb].
    destruct (Z.eqb_spec (exp_field bits) 0) as [E0 | E0];
      destruct (Z.eqb_spec (frac_field bits) 0) as [F0 | F0]; cbn [andb].
    + rewrite decomposition_fields. cbv zeta. rewrite E0, F0. cbn [fst snd].
      pose proof (canonical_zero_part (sign_field bits)).
      auto using canonical_weaken.
    + rewrite decomposition_finite by tauto. cbn [fst snd E9S12.exponent].
      auto using limb_up_to_zero_exponent.
    + rewrite decomposition_finite by tauto. cbn [fst snd E9S12.exponent].
      auto using limb_up_to_zero_exponent.
    + rewrite decomposition_finite by tauto. cbn [fst snd E9S12.exponent].
      auto using limb_up_to_zero_exponent.
Qed.

(** C2 as stated fails. The low part of [1.0] (pattern [0x3F800000]) is
    zero-flagged with exponent 127, and the high part of the smallest
    subnormal (pattern [0x00000001]) is zero-flagged with exponent 12. *)
Lemma decompose_flags_not_canonical :
  (low 0x3F800000 = E9S12.mk 0 127 0 true false false
   /\ ~ canonical (low 0x3F800000))
  /\ (high 0x00000001 = E9S12.mk 0 12 0 true false false
      /\ ~ canonical (high 0x00000001)).
Proof.
  split; (split; [ vm_compute; reflexivity | ]).
  - intros (_ & Z0 & _). destruct (Z0 eq_refl) as [E _]. discriminate E.
  - intros (_ & Z0 & _). destruct (Z0 eq_refl) as [E _]. discriminate E.
Qed.

(** ** Numeric value of the two parts *)

Lemma pow2_shift (e k : Z) :
  ((2 # 1) ^ (e + k) == (2 # 1) ^ e * (2 # 1) ^ k)%Q.
Proof. apply Qpower_plus. discriminate. Qed.

Lemma with_sign_plus (s : Z) (a b : Q) :
  (with_sign s a + with_sign s b == with_sign s (a + b))%Q.
Proof. unfold with_sign. destruct (truthy s); ring. Qed.

Lemma with_sign_eq (s : Z) (a b : Q) :
  (a == b)%Q -> (with_sign s a == with_sign s b)%Q.
Proof. intros E. unfold with_sign. destruct (truthy s); now rewrite E. Qed.

(** A part built by the split, zero-flagged or not, is worth
    [(-1)^s * m * 2^(e - 150)]. *)
Lemma limb_numeric (s e m : Z) :
  exists v : Q,
    numeric (E9S12.to_float (E9S12.mk s e m (m =? 0) false false)) = Some v
    /\ (v == with_sign s (inject_Z m * (2 # 1) ^ (e - 150)))%Q.
Proof.
  unfold E9S12.to_float.
  cbn [E9S12.is_zero E9S12.is_inf E9S12.is_nan E9S12.sign E9S12.exponent
       E9S12.significand].
  destruct (Z.eqb_spec m 0) as [-> | M].
  - exists 0%Q. split; [ reflexivity | ].
    unfold with_sign. destruct (truthy s); ring.
  - eexists. split; [ reflexivity | ].
    fold (with_sign s
            (inject_Z m / inject_Z (2 ^ (E9S12.SIGNIFICAND_BITS - 1))
             * (2 # 1) ^ (e - E9S12.EXPONENT_BIAS))).
    apply with_sign_eq.
    replace (e - E9S12.EXPONENT_BIAS) with (e - 150 + 11)
      by (unfold E9S12.EXPONENT_BIAS; lia).
    rewrite pow2_shift.
    change (inject_Z (2 ^ (E9S12.SIGNIFICAND_BITS - 1))) with (2048 # 1)%Q.
    change ((2 # 1) ^ 11)%Q with (2048 # 1)%Q.
    field.
Qed.

Lemma fp32_value_sig24 (bits : Z) :
  (fp32_value bits
   == with_sign (sign_field bits)
        (inject_Z (sig24 bits) * (2 # 1) ^ (exp_field bits - 150)))%Q.
Proof.
  unfold fp32_value, sig24, with_sign, truthy.
  assert (M : ((if exp_field bits =? 0
                then inject_Z (frac_field bits) * (2 # 1) ^ (-149)
                else inject_Z (2 ^ 23 + frac_field bits)
                     * (2 # 1) ^ (exp_field bits - 150))
               == inject_Z (if exp_field bits =? 0
                            then 2 * frac_field bits
                            else 2 ^ 23 + frac_field bits)
                  * (2 # 1) ^ (exp_field bits - 150))%Q).
  { destruct (Z.eqb_spec (exp_field bits) 0) as [E0 | E0]; [ | reflexivity ].
    rewrite E0, inject_Z_mult.
    change (-149) with (0 - 150 + 1). rewrite pow2_shift.
    change ((2 # 1) ^ 1)%Q with (inject_Z 2). ring. }
  destruct (sign_field bits =? 0); cbn [negb]; now rewrite M.
Qed.

(** The values of the two limbs add up to the value of the significand. *)
Lemma reconstruction_limbs (bits : Z) :
  let s := sign_field bits in
  let e := exp_field bits in
  let sig_h := fst (split_sig (sig24 bits)) in
  let sig_l := snd (split_sig (sig24 bits)) in
  exists vh vl : Q,
    numeric (E9S12.to_float
               (E9S12.mk s (e + 12) sig_h (sig_h =? 0) false false)) = Some vh
    /\ numeric (E9S12.to_float
                  (E9S12.mk s e sig_l (sig_l =? 0) false false)) = Some vl
    /\ (vh + vl == fp32_value bits)%Q.
Proof.
  cbv zeta.
  destruct (limb_numeric (sign_field bits) (exp_field bits + 12)
              (fst (split_sig (sig24 bits)))) as (vh & Hh & Eh).
  destruct (limb_numeric (sign_field bits) (exp_field bits)
              (snd (split_sig (sig24 bits)))) as (vl & Hl & El).
  exists vh, vl. split; [ exact Hh | split; [ exact Hl | ] ].
  rewrite Eh, El, with_sign_plus, fp32_value_sig24.
  apply with_sign_eq.
  rewrite <- (split_sig_sum (sig24 bits) (sig24_range bits)) at 3.
  rewrite inject_Z_plus, inject_Z_mult.
  replace (exp_field bits + 12 - 150) with (exp_field bits - 150 + 12) by lia.
  rewrite pow2_shift.
  change ((2 # 1) ^ 12)%Q with (inject_Z (2 ^ 12)). ring.
Qed.

(** The two parts of a finite input add up to the input, exactly. *)
Lemma reconstruction_exact (bits : Z) :
  exp_field bits <> 255 ->
  exists vh vl : Q,
    numeric (E9S12.to_float (high bits)) = Some vh
    /\ numeric (E9S12.to_float (low bits)) = Some vl
    /\ (vh + vl == fp32_value bits)%Q.
Proof.
  intros Fin. unfold high, low.
  destruct (Z.eq_dec (exp_field bits) 0) as [E0 | E0];
    [ destruct (Z.eq_dec (frac_field bits) 0) as [F0 | F0] | ].
  - rewrite decomposition_fields. cbv zeta. rewrite E0, F0. cbn [andb fst snd].
    exists 0%Q, 0%Q. repeat split.
    rewrite fp32_value_sig24. unfold sig24, with_sign. rewrite E0, F0.
    cbn [Z.eqb Z.mul inject_Z]. destruct (truthy (sign_field bits)); ring.
  - rewrite decomposition_finite by tauto. cbn [fst snd].
    apply (reconstruction_limbs bits).
  - rewrite decomposition_finite by tauto. cbn [fst snd].
    apply (reconstruction_limbs bits).
Qed.

(** ** The rational reading of [to_float] is exact in binary64

    Every intermediate of [to_float] on a part within the field widths, and the
    sum of the two parts of a decomposition, is a binary64 number; no
    operation of lines 29-33 or of the sum rounds. *)

Lemma to_float_steps_binary64 (u : E9S12.t) :
  0 <= E9S12.significand u <= 0xFFF ->
  0 <= E9S12.exponent u <= 511 ->
  let unbiased_exp := E9S12.exponent u - E9S12.EXPONENT_BIAS in
  let significand_value :=
    (inject_Z (E9S12.significand u)
       / inject_Z (2 ^ (E9S12.SIGNIFICAND_BITS - 1)))%Q in
  binary64_exact significand_value
  /\ binary64_exact ((2 # 1) ^ unbiased_exp)
  /\ binary64_exact (significand_value * (2 # 1) ^ unbiased_exp).
Proof.
  intros M E. cbv zeta. unfold E9S12.EXPONENT_BIAS.
  change (inject_Z (2 ^ (E9S12.SIGNIFICAND_BITS - 1))) with (2048 # 1)%Q.
  repeat split.
  - exists (E9S12.significand u), (-11). split; [ lia | split; [ lia | ] ].
    change ((2 # 1) ^ (-11))%Q with (/ (2048 # 1))%Q. reflexivity.
  - exists 1, (E9S12.exponent u - 139). split; [ lia | split; [ lia | ] ].
    change (inject_Z 1) with 1%Q. ring.
  - exists (E9S12.significand u), (E9S12.exponent u - 139 + (-11)).
    split; [ lia | split; [ lia | ] ].
    rewrite pow2_shift.
    change ((2 # 1) ^ (-11))%Q with (/ (2048 # 1))%Q. field.
Qed.

Lemma fp32_value_binary64 (bits : Z) : binary64_exact (fp32_value bits).
Proof.
  pose proof (sig24_range bits) as S. pose proof (exp_field_range bits) as E.
  assert (V := fp32_value_sig24 bits). unfold with_sign in V.
  destruct (truthy (sign_field bits)).
  - exists (- sig24 bits), (exp_field bits - 150).
    split; [ lia | split; [ lia | ] ].
    rewrite V, inject_Z_opp. ring.
  - exists (sig24 bits), (exp_field bits - 150).
    split; [ lia | split; [ lia | ] ].
    exact V.
Qed.

Lemma fp32_value_normal_nonzero (bits : Z) :
  is_normal bits -> ~ (fp32_value bits == 0)%Q.
Proof.
  intros N. unfold is_normal in N. rewrite fp32_value_sig24.
  assert (P : (0 < inject_Z (sig24 bits)
                   * (2 # 1) ^ (exp_field bits - 150))%Q).
  { apply Qmult_lt_0_compat.
    - change 0%Q with (inject_Z 0). rewrite <- Zlt_Qlt.
      unfold sig24. pose proof (frac_field_range bits).
      destruct (Z.eqb_spec (exp_field bits) 0); lia.
    - apply Qpower_0_lt. reflexivity. }
  unfold with_sign. destruct (truthy (sign_field bits)); intros E.
  - apply (Qlt_irrefl 0). rewrite <- E at 1.
    apply (Qplus_lt_l _ _ (inject_Z (sig24 bits)
                               * (2 # 1) ^ (exp_field bits - 150))).
    ring_simplify. exact P.
  - rewrite E in P. exact (Qlt_irrefl 0 P).
Qed.

Lemma rel_error_exact (x y : Q) : (y == x)%Q -> (rel_error x y == 0)%Q.
Proof.
  intros E. unfold rel_error. rewrite E.
  setoid_replace (x - x)%Q with 0%Q by ring.
  change (Qabs 0) with 0%Q. unfold Qdiv. ring.
Qed.

(** C1. For a normal input both parts have a numeric value, the input is
    nonzero, and the relative error of the sum of the two values with respect
    to the input is below [2^-23]; the sum is in fact the input itself. *)
Theorem reconstruction_accuracy (bits : Z) :
  is_normal bits ->
  exists vh vl : Q,
    numeric (E9S12.to_float (high bits)) = Some vh
    /\ numeric (E9S12.to_float (low bits)) = Some vl
    /\ ~ (fp32_value bits == 0)%Q
    /\ (rel_error (fp32_value bits) (vh + vl) < (2 # 1) ^ (-23))%Q
    /\ (vh + vl == fp32_value bits)%Q.
Proof.
  intros N.
  destruct (reconstruction_exact bits) as (vh & vl & Hh & Hl & E).
  { unfold is_normal in N. lia. }
  exists vh, vl. repeat split; try assumption.
  - now apply fp32_value_normal_nonzero.
  - rewrite (rel_error_exact _ _ E). reflexivity.
Qed.

Lemma reconstruction_accuracy_witness :
  is_normal 0x40490FDB
  /\ exists vh vl : Q,
       numeric (E9S12.to_float (high 0x40490FDB)) = Some vh
       /\ numeric (E9S12.to_float (low 0x40490FDB)) = Some vl
       /\ ~ (fp32_value 0x40490FDB == 0)%Q
       /\ (rel_error (fp32_value 0x40490FDB) (vh + vl) < (2 # 1) ^ (-23))%Q
       /\ (vh + vl == fp32_value 0x40490FDB)%Q.
Proof.
  assert (N : is_normal 0x40490FDB).
  { unfold is_normal. change (exp_field 0x40490FDB) with 128. lia. }
  split; [ exact N | exact (reconstruction_accuracy 0x40490FDB N) ].
Defined.

(** * Further properties of the decomposition *)

(** ** The parts of a finite input in closed form *)

Lemma parts_of_finite (bits : Z) :
  exp_field bits <> 255 ->
  let sig_h := fst (split_sig (sig24 bits)) in
  let sig_l := snd (split_sig (sig24 bits)) in
  E9S12.significand (high bits) = sig_h
  /\ E9S12.significand (low bits) = sig_l
  /\ E9S12.is_zero (high bits) = (sig_h =? 0)
  /\ E9S12.is_zero (low bits) = (sig_l =? 0)
  /\ E9S12.sign (high bits) = sign_field bits
  /\ E9S12.sign (low bits) = sign_field bits.
Proof.
  intros Fin. cbv zeta. unfold high, low.
  destruct (Z.eq_dec (exp_field bits) 0) as [E0 | E0];
    [ destruct (Z.eq_dec (frac_field bits) 0) as [F0 | F0] | ].
  - rewrite decomposition_fields. cbv zeta. unfold sig24.
    rewrite E0, F0. cbn. repeat split.
  - rewrite decomposition_finite by tauto. cbn. repeat split.
  - rewrite decomposition_finite by tauto. cbn. repeat split.
Qed.

Lemma parts_numeric (bits : Z) :
  exp_field bits <> 255 ->
  exists vh vl : Q,
    numeric (E9S12.to_float (high bits)) = Some vh
    /\ numeric (E9S12.to_float (low bits)) = Some vl
    /\ (vh == with_sign (sign_field bits)
                (inject_Z (fst (split_sig (sig24 bits)))
                 * (2 # 1) ^ (exp_field bits - 138)))%Q
    /\ (vl == with_sign (sign_field bits)
                (inject_Z (snd (split_sig (sig24 bits)))
                 * (2 # 1) ^ (exp_field bits - 150)))%Q.
Proof.
  intros Fin.
  destruct (limb_numeric (sign_field bits) (exp_field bits + 12)
              (fst (split_sig (sig24 bits)))) as (vh & Hh & Eh).
  destruct (limb_numeric (sign_field bits) (exp_field bits)
              (snd (split_sig (sig24 bits)))) as (vl & Hl & El).
  replace (exp_field bits + 12 - 150) with (exp_field bits - 138) in Eh by lia.
  unfold high, low.
  destruct (Z.eq_dec (exp_field bits) 0) as [E0 | E0];
    [ destruct (Z.eq_dec (frac_field bits) 0) as [F0 | F0] | ].
  - rewrite decomposition_fields. cbv zeta. unfold sig24.
    rewrite E0, F0. cbn [Z.eqb andb fst snd Z.mul].
    exists 0%Q, 0%Q. split; [ reflexivity | split; [ reflexivity | ] ].
    change (split_sig 0) with (0, 0). cbn [fst snd inject_Z].
    unfold with_sign. destruct (truthy (sign_field bits)); split; reflexivity.
  - rewrite decomposition_finite by tauto. cbn [fst snd].
    exists vh, vl. tauto.
  - rewrite decomposition_finite by tauto. cbn [fst snd].
    exists vh, vl. tauto.
Qed.

Lemma Qabs_with_sign (s : Z) (x : Q) :
  (0 <= x)%Q -> (Qabs (with_sign s x) == x)%Q.
Proof.
  intros P. unfold with_sign. destruct (truthy s).
  - rewrite Qabs_opp. now apply Qabs_pos.
  - now apply Qabs_pos.
Qed.

Lemma pow2_pos (e : Z) : (0 < (2 # 1) ^ e)%Q.
Proof. apply Qpower_0_lt. reflexivity. Qed.

Lemma limb_value_nonneg (m e : Z) :
  0 <= m -> (0 <= inject_Z m * (2 # 1) ^ e)%Q.
Proof.
  intros M. apply Qmult_le_0_compat.
  - change 0%Q with (inject_Z 0). now rewrite <- Zle_Qle.
  - apply Qlt_le_weak, pow2_pos.
Qed.

(** X1. The two parts of every finite input, subnormal and zero inputs
    included, have numeric values that add up to the value of the input
    exactly: the shift by one of a subnormal fraction on line 62 makes up for
    the exponent field 0 standing for the exponent of field 1. *)
Theorem finite_reconstruction_exact (bits : Z) :
  exp_field bits <> 255 ->
  exists vh vl : Q,
    numeric (E9S12.to_float (high bits)) = Some vh
    /\ numeric (E9S12.to_float (low bits)) = Some vl
    /\ (vh + vl == fp32_value bits)%Q.
Proof. intros Fin. exact (reconstruction_exact bits Fin). Qed.

Lemma finite_reconstruction_exact_witness :
  exp_field 0x00000001 <> 255
  /\ exists vh vl : Q,
       numeric (E9S12.to_float (high 0x00000001)) = Some vh
       /\ numeric (E9S12.to_float (low 0x00000001)) = Some vl
       /\ (vh + vl == fp32_value 0x00000001)%Q.
Proof.
  assert (Fin : exp_field 0x00000001 <> 255) by (vm_compute; discriminate).
  split; [ exact Fin | exact (finite_reconstruction_exact 0x00000001 Fin) ].
Defined.

(** X2. For a finite input the high part is the input cut off toward zero
    at the 12th significand bit: its value is an integer multiple of
    [2^(e - 138)], [e] the source exponent field, the low part is smaller
    than that unit in magnitude, and the two magnitudes add up to the
    magnitude of the input (the parts never cancel). *)
Theorem high_truncates_input (bits : Z) :
  exp_field bits <> 255 ->
  exists vh vl : Q,
    numeric (E9S12.to_float (high bits)) = Some vh
    /\ numeric (E9S12.to_float (low bits)) = Some vl
    /\ (vh == with_sign (sign_field bits)
                (inject_Z (E9S12.significand (high bits))
                 * (2 # 1) ^ (exp_field bits - 138)))%Q
    /\ (Qabs vl < (2 # 1) ^ (exp_field bits - 138))%Q
    /\ (Qabs (fp32_value bits) == Qabs vh + Qabs vl)%Q.
Proof.
  intros Fin.
  destruct (parts_numeric bits Fin) as (vh & vl & Hh & Hl & Eh & El).
  destruct (parts_of_finite bits Fin) as (Sh & _).
  pose proof (split_sig_range (sig24 bits)) as [Rh Rl].
  pose proof (split_sig_sum (sig24 bits) (sig24_range bits)) as Sum.
  set (h := fst (split_sig (sig24 bits))) in *.
  set (l := snd (split_sig (sig24 bits))) in *.
  set (e := exp_field bits) in *.
  assert (Ah : (Qabs vh == inject_Z h * (2 # 1) ^ (e - 138))%Q).
  { rewrite Eh. apply Qabs_with_sign, limb_value_nonneg. lia. }
  assert (Al : (Qabs vl == inject_Z l * (2 # 1) ^ (e - 150))%Q).
  { rewrite El. apply Qabs_with_sign, limb_value_nonneg. lia. }
  assert (P12 : ((2 # 1) ^ (e - 138)
                 == inject_Z (2 ^ 12) * (2 # 1) ^ (e - 150))%Q).
  { replace (e - 138) with (e - 150 + 12) by lia. rewrite pow2_shift.
    change ((2 # 1) ^ 12)%Q with (inject_Z (2 ^ 12)). ring. }
  exists vh, vl. split; [ exact Hh | split; [ exact Hl | ] ].
  split; [ rewrite Sh; exact Eh | split ].
  - rewrite Al, P12. apply Qmult_lt_compat_r; [ apply pow2_pos | ].
    rewrite <- Zlt_Qlt. lia.
  - rewrite Ah, Al, fp32_value_sig24, Qabs_with_sign
      by (apply limb_value_nonneg; pose proof (sig24_range bits); lia).
    rewrite <- Sum, inject_Z_plus, inject_Z_mult, P12. subst e. ring.
Qed.

Lemma high_truncates_input_witness :
  exp_field 0x40490FDB <> 255
  /\ exists vh vl : Q,
       numeric (E9S12.to_float (high 0x40490FDB)) = Some vh
       /\ numeric (E9S12.to_float (low 0x40490FDB)) = Some vl
       /\ (vh == with_sign (sign_field 0x40490FDB)
                   (inject_Z (E9S12.significand (high 0x40490FDB))
                    * (2 # 1) ^ (exp_field 0x40490FDB - 138)))%Q
       /\ (Qabs vl < (2 # 1) ^ (exp_field 0x40490FDB - 138))%Q
       /\ (Qabs (fp32_value 0x40490FDB) == Qabs vh + Qabs vl)%Q.
Proof.
  assert (Fin : exp_field 0x40490FDB <> 255) by (vm_compute; discriminate).
  split; [ exact Fin | exact (high_truncates_input 0x40490FDB Fin) ].
Defined.

(** ** What the decomposition keeps of its input *)

Lemma bits_of_fields (bits : Z) :
  0 <= bits < 2 ^ 32 ->
  bits = sign_field bits * 2 ^ 31 + exp_field bits * 2 ^ 23 + frac_field bits.
Proof.
  intros R. unfold sign_field, exp_field, frac_field.
  assert (T : 0 <= bits / 2 ^ 31 < 2).
  { split; [ apply Z.div_pos; lia | apply Z.div_lt_upper_bound; lia ]. }
  rewrite (Z.mod_small (bits / 2 ^ 31) 2) by exact T.
  assert (D : bits / 2 ^ 31 = bits / 2 ^ 23 / 2 ^ 8).
  { rewrite Z.div_div by lia. reflexivity. }
  pose proof (Z.div_mod bits (2 ^ 23)).
  pose proof (Z.div_mod (bits / 2 ^ 23) (2 ^ 8)). lia.
Qed.

Lemma fields_determine_bits (b1 b2 : Z) :
  0 <= b1 < 2 ^ 32 -> 0 <= b2 < 2 ^ 32 ->
  sign_field b1 = sign_field b2 ->
  exp_field b1 = exp_field b2 ->
  frac_field b1 = frac_field b2 ->
  b1 = b2.
Proof.
  intros R1 R2 S E F.
  rewrite (bits_of_fields b1 R1), (bits_of_fields b2 R2), S, E, F.
  reflexivity.
Qed.

Lemma sig24_determines_fraction (b1 b2 : Z) :
  exp_field b1 = exp_field b2 -> sig24 b1 = sig24 b2 ->
  frac_field b1 = frac_field b2.
Proof.
  unfold sig24. intros E. rewrite E.
  destruct (exp_field b2 =? 0); lia.
Qed.



(** X4. The decomposition tells any two 32-bit patterns apart, except NaNs
    of the same sign: all of these give the same pair, the NaN payload is
    dropped (line 84). *)
Theorem decomposition_kernel (b1 b2 : Z) :
  0 <= b1 < 2 ^ 32 -> 0 <= b2 < 2 ^ 32 ->
  fp32_to_e9s12_decomposition b1 = fp32_to_e9s12_decomposition b2
  <-> b1 = b2
      \/ (is_nan_pattern b1 /\ is_nan_pattern b2
          /\ sign_field b1 = sign_field b2).
Proof.
  intros R1 R2. split.
  - rewrite !decomposition_fields. cbv zeta. unfold zero_part, is_nan_pattern.
    pose proof (exp_field_range b1) as X1.
    pose proof (exp_field_range b2) as X2.
    pose proof (split_sig_sum (sig24 b1) (sig24_range b1)) as S1.
    pose proof (split_sig_sum (sig24 b2) (sig24_range b2)) as S2.
    destruct (split_sig (sig24 b1)) as [h1 l1].
    destruct (split_sig (sig24 b2)) as [h2 l2]. cbn [fst snd] in *.
    destruct (Z.eqb_spec (exp_field b1) 0) as [A0 | A0];
      destruct (Z.eqb_spec (frac_field b1) 0) as [A1 | A1];
      destruct (Z.eqb_spec (exp_field b1) 255) as [A2 | A2];
      try lia;
      destruct (Z.eqb_spec (exp_field b2) 0) as [B0 | B0];
      destruct (Z.eqb_spec (frac_field b2) 0) as [B1 | B1];
      destruct (Z.eqb_spec (exp_field b2) 255) as [B2 | B2];
      try lia;
      cbn [andb negb]; intros H; injection H; intros;
      try discriminate; try lia;
      try (right; repeat split; (assumption || lia));
      left; apply fields_determine_bits; try assumption; try lia;
      apply sig24_determines_fraction; lia.
  - intros [-> | ((E1 & F1) & (E2 & F2) & S)]; [ reflexivity | ].
    rewrite (decomposition_exp255 b1 E1), (decomposition_exp255 b2 E2), S.
    destruct (Z.eqb_spec (frac_field b1) 0); [ contradiction | ].
    destruct (Z.eqb_spec (frac_field b2) 0); [ contradiction | ].
    reflexivity.
Qed.

Lemma decomposition_kernel_witness :
  0 <= 0x7FC00000 < 2 ^ 32 /\ 0 <= 0x7F800001 < 2 ^ 32
  /\ (fp32_to_e9s12_decomposition 0x7FC00000
       = fp32_to_e9s12_decomposition 0x7F800001
      <-> 0x7FC00000 = 0x7F800001
          \/ (is_nan_pattern 0x7FC00000 /\ is_nan_pattern 0x7F800001
              /\ sign_field 0x7FC00000 = sign_field 0x7F800001)).
Proof.
  assert (R1 : 0 <= 0x7FC00000 < 2 ^ 32) by lia.
  assert (R2 : 0 <= 0x7F800001 < 2 ^ 32) by lia.
  split; [ exact R1 | split; [ exact R2 | ] ].
  exact (decomposition_kernel 0x7FC00000 0x7F800001 R1 R2).
Defined.

(** ** When a part is zero-flagged *)

(** X5. The high part is zero-flagged exactly for the inputs with exponent
    field 0 and a fraction below [2^11]: the zeros and the subnormals whose
    doubled fraction fits the lower limb. *)
Theorem high_zero_flag_iff (bits : Z) :
  E9S12.is_zero (high bits) = true
  <-> exp_field bits = 0 /\ frac_field bits < 2 ^ 11.
Proof.
  pose proof (exp_field_range bits) as R.
  pose proof (frac_field_range bits) as F.
  destruct (Z.eq_dec (exp_field bits) 255) as [E255 | E255].
  - unfold high. rewrite (decomposition_exp255 bits E255).
    split; [ | lia ]. destruct (frac_field bits =? 0); discriminate.
  - destruct (parts_of_finite bits E255) as (_ & _ & Zh & _). rewrite Zh.
    rewrite split_sig_div_mod. cbn [fst]. unfold sig24. rewrite Z.eqb_eq.
    destruct (Z.eqb_spec (exp_field bits) 0) as [E0 | E0].
    + assert (B : 0 <= 2 * frac_field bits / 2 ^ 12 < 2 ^ 12).
      { split; [ apply Z.div_pos | apply Z.div_lt_upper_bound ]; lia. }
      rewrite Z.mod_small by exact B.
      split.
      * intros D. split; [ exact E0 | ].
        pose proof (Z.div_mod (2 * frac_field bits) (2 ^ 12)).
        pose proof (Z.mod_pos_bound (2 * frac_field bits) (2 ^ 12)). lia.
      * intros [_ L]. apply Z.div_small. lia.
    + split; [ | lia ]. intros D. exfalso.
      assert (N : is_normal bits) by (unfold is_normal; lia).
      pose proof (normal_sig_h bits N) as H.
      rewrite split_sig_div_mod in H. cbn [fst] in H. unfold sig24 in H.
      destruct (Z.eqb_spec (exp_field bits) 0); lia.
Qed.

(** X6. For a finite input the low part is zero-flagged exactly when the
    lower 12 bits of the significand are clear, and then the high part alone
    has the value of the input. *)
Theorem low_zero_flag_iff (bits : Z) :
  exp_field bits <> 255 ->
  (E9S12.is_zero (low bits) = true <-> significand_of bits mod 2 ^ 12 = 0)
  /\ (E9S12.is_zero (low bits) = true ->
      exists v : Q,
        numeric (E9S12.to_float (high bits)) = Some v
        /\ (v == fp32_value bits)%Q).
Proof.
  intros Fin.
  destruct (parts_of_finite bits Fin) as (_ & _ & _ & Zl & _).
  assert (S : significand_of bits = sig24 bits).
  { unfold significand_of. rewrite unpack_fp32_fields. reflexivity. }
  rewrite S, Zl. rewrite split_sig_div_mod. cbn [snd]. rewrite Z.eqb_eq.
  split; [ tauto | ].
  intros L0.
  destruct (parts_numeric bits Fin) as (vh & vl & Hh & _ & Eh & _).
  exists vh. split; [ exact Hh | ].
  rewrite Eh, fp32_value_sig24. apply with_sign_eq.
  pose proof (split_sig_sum (sig24 bits) (sig24_range bits)) as Sum.
  rewrite split_sig_div_mod in Sum |- *. cbn [fst snd] in Sum |- *.
  rewrite L0, Z.add_0_r in Sum. rewrite <- Sum at 2.
  rewrite inject_Z_mult.
  replace (exp_field bits - 138) with (exp_field bits - 150 + 12) by lia.
  rewrite pow2_shift.
  change ((2 # 1) ^ 12)%Q with (inject_Z (2 ^ 12)). ring.
Qed.

Lemma low_zero_flag_iff_witness :
  exp_field 0x3F800000 <> 255
  /\ (E9S12.is_zero (low 0x3F800000) = true
      <-> significand_of 0x3F800000 mod 2 ^ 12 = 0)
  /\ (E9S12.is_zero (low 0x3F800000) = true ->
      exists v : Q,
        numeric (E9S12.to_float (high 0x3F800000)) = Some v
        /\ (v == fp32_value 0x3F800000)%Q).
Proof.
  assert (Fin : exp_field 0x3F800000 <> 255) by (vm_compute; discriminate).
  split; [ exact Fin | exact (low_zero_flag_iff 0x3F800000 Fin) ].
Defined.

(** ** The demonstration *)

Lemma demonstrate_fields (bits : Z) :
  shown_high (demonstrate_decomposition bits) = high bits
  /\ shown_low (demonstrate_decomposition bits) = low bits
  /\ reconstructed (demonstrate_decomposition bits)
     = py_add (E9S12.to_float (high bits)) (E9S12.to_float (low bits))
  /\ error (demonstrate_decomposition bits)
     = if py_ne (fp32_float bits) (PyZero false)
          && py_ne (fp32_float bits) (PyInf false)
          && py_ne (fp32_float bits) (PyInf true)
       then Some (py_abs (py_sub (fp32_float bits)
                    (py_add (E9S12.to_float (high bits))
                            (E9S12.to_float (low bits)))))
       else None.
Proof.
  unfold demonstrate_decomposition, high, low.
  destruct (fp32_to_e9s12_decomposition bits) as [u_h u_l].
  repeat split.
Qed.

Lemma fp32_value_nonzero (bits : Z) :
  ~ (exp_field bits = 0 /\ frac_field bits = 0) ->
  ~ (fp32_value bits == 0)%Q.
Proof.
  intros NZ. rewrite fp32_value_sig24.
  assert (P : (0 < inject_Z (sig24 bits)
                   * (2 # 1) ^ (exp_field bits - 150))%Q).
  { apply Qmult_lt_0_compat; [ | apply pow2_pos ].
    change 0%Q with (inject_Z 0). rewrite <- Zlt_Qlt.
    unfold sig24. pose proof (frac_field_range bits).
    destruct (Z.eqb_spec (exp_field bits) 0); lia. }
  unfold with_sign. destruct (truthy (sign_field bits)); intros E.
  - apply (Qlt_irrefl 0). rewrite <- E at 1.
    apply (Qplus_lt_l _ _ (inject_Z (sig24 bits)
                               * (2 # 1) ^ (exp_field bits - 150))).
    ring_simplify. exact P.
  - rewrite E in P. exact (Qlt_irrefl 0 P).
Qed.

(** The sum of the two parts of a finite nonzero input is a finite float
    with the value of the input. *)
Lemma reconstructed_finite (bits : Z) :
  exp_field bits <> 255 ->
  ~ (exp_field bits = 0 /\ frac_field bits = 0) ->
  exists r : Q,
    py_add (E9S12.to_float (high bits)) (E9S12.to_float (low bits))
      = PyFinite r
    /\ (r == fp32_value bits)%Q.
Proof.
  intros Fin NZ.
  destruct (reconstruction_exact bits Fin) as (vh & vl & Hh & Hl & E).
  pose proof (fp32_value_nonzero bits NZ) as V.
  destruct (E9S12.to_float (high bits)) as [ | | zh | qh ];
    try discriminate Hh;
    destruct (E9S12.to_float (low bits)) as [ | | zl | ql ];
    try discriminate Hl;
    cbn [numeric] in Hh, Hl; injection Hh as <-; injection Hl as <-;
    cbn [py_add].
  - exfalso. apply V. rewrite <- E. reflexivity.
  - exists ql. split; [ reflexivity | ]. rewrite <- E. ring.
  - exists qh. split; [ reflexivity | ]. rewrite <- E. ring.
  - destruct (Qeq_bool (qh + ql) 0) eqn:Z0.
    + exfalso. apply V. rewrite <- E. now apply Qeq_bool_eq.
    + exists (qh + ql)%Q. split; [ reflexivity | exact E ].
Qed.

(** X7. The sum that [demonstrate_decomposition] prints as "Reconstructed"
    is the input again, for every pattern: a zero with the sign of the input
    zero, an infinity with the sign of the input infinity, NaN for a NaN,
    and for a finite nonzero input a finite float of the same value. *)
Theorem demonstrate_reconstructs_input (bits : Z) :
  py_same (reconstructed (demonstrate_decomposition bits)) (fp32_float bits).
Proof.
  destruct (demonstrate_fields bits) as (_ & _ & -> & _).
  unfold fp32_float.
  destruct (Z.eqb_spec (exp_field bits) 255) as [E255 | E255].
  - unfold high, low. rewrite (decomposition_exp255 bits E255).
    destruct (frac_field bits =? 0); cbn; [ | exact I ].
    destruct (truthy (sign_field bits)); reflexivity.
  - destruct (Z.eqb_spec (exp_field bits) 0) as [E0 | E0];
      destruct (Z.eqb_spec (frac_field bits) 0) as [F0 | F0]; cbn [andb].
    + unfold high, low. rewrite decomposition_fields. cbv zeta.
      rewrite E0, F0. cbn. apply andb_diag.
    + destruct (reconstructed_finite bits) as (r & -> & E); try tauto.
      split; [ exact E | ]. rewrite E. apply fp32_value_nonzero. tauto.
    + destruct (reconstructed_finite bits) as (r & -> & E); try tauto.
      split; [ exact E | ]. rewrite E. apply fp32_value_nonzero. tauto.
    + destruct (reconstructed_finite bits) as (r & -> & E); try tauto.
      split; [ exact E | ]. rewrite E. apply fp32_value_nonzero. tauto.
Qed.

(** X8. The "Error" line of [demonstrate_decomposition]: it is left out for
    a zero and for an infinity, it shows [0.0] for every finite nonzero
    input, and a NaN input passes the test of line 118 and shows NaN. *)
Theorem demonstrate_error (bits : Z) :
  error (demonstrate_decomposition bits)
  = if exp_field bits =? 255 then
      if frac_field bits =? 0 then None else Some PyNaN
    else if (exp_field bits =? 0) && (frac_field bits =? 0) then None
    else Some (PyZero false).
Proof.
  destruct (demonstrate_fields bits) as (_ & _ & _ & ->).
  unfold fp32_float.
  destruct (Z.eqb_spec (exp_field bits) 255) as [E255 | E255].
  - destruct (frac_field bits =? 0); [ | reflexivity ].
    destruct (truthy (sign_field bits)); reflexivity.
  - assert (Fin :
               ~ (exp_field bits = 0 /\ frac_field bits = 0) ->
               (if py_ne (PyFinite (fp32_value bits)) (PyZero false)
                   && py_ne (PyFinite (fp32_value bits)) (PyInf false)
                   && py_ne (PyFinite (fp32_value bits)) (PyInf true)
                then Some (py_abs (py_sub (PyFinite (fp32_value bits))
                             (py_add (E9S12.to_float (high bits))
                                     (E9S12.to_float (low bits)))))
                else None) = Some (PyZero false)).
    { intros NZ.
      destruct (reconstructed_finite bits E255 NZ) as (r & -> & E).
      pose proof (fp32_value_nonzero bits NZ) as V.
      unfold py_ne. cbn [py_eq numeric negb andb].
      destruct (Qeq_bool (fp32_value bits) 0) eqn:Z0.
      { exfalso. apply V. now apply Qeq_bool_eq. }
      cbn [negb andb py_sub py_neg py_add].
      assert (D : Qeq_bool (fp32_value bits + - r) 0 = true).
      { apply Qeq_bool_iff. rewrite E. ring. }
      rewrite D. reflexivity. }
    destruct (Z.eqb_spec (exp_field bits) 0) as [E0 | E0];
      destruct (Z.eqb_spec (frac_field bits) 0) as [F0 | F0]; cbn [andb];
      try (apply Fin; tauto).
    reflexivity.
Qed.

(** ** No rounding anywhere *)

Lemma part_widths (bits : Z) :
  (0 <= E9S12.exponent (high bits) <= 511
   /\ 0 <= E9S12.significand (high bits) <= 0xFFF)
  /\ (0 <= E9S12.exponent (low bits) <= 511
      /\ 0 <= E9S12.significand (low bits) <= 0xFFF).
Proof.
  unfold high, low. rewrite decomposition_fields. cbv zeta.
  pose proof (exp_field_range bits) as R.
  pose proof (split_sig_range (sig24 bits)) as S.
  destruct ((exp_field bits =? 0) && (frac_field bits =? 0));
    [ cbn; lia | ].
  destruct ((exp_field bits =? 255) && (frac_field bits =? 0));
    [ cbn; lia | ].
  destruct ((exp_field bits =? 255) && negb (frac_field bits =? 0));
    [ cbn; lia | ].
  cbn [fst snd E9S12.exponent E9S12.significand]. lia.
Qed.

Lemma binary64_exact_eq (p q : Q) :
  (p == q)%Q -> binary64_exact p -> binary64_exact q.
Proof.
  intros E (m & e & M & R & V). exists m, e.
  split; [ exact M | split; [ exact R | ] ]. now rewrite <- E.
Qed.

Lemma binary64_with_sign (s m e : Z) :
  0 <= m < 2 ^ 53 -> -1074 <= e <= 971 ->
  binary64_exact (with_sign s (inject_Z m * (2 # 1) ^ e)).
Proof.
  intros M R. unfold with_sign. destruct (truthy s).
  - exists (- m), e. split; [ lia | split; [ exact R | ] ].
    rewrite inject_Z_opp. ring.
  - exists m, e. split; [ lia | split; [ exact R | reflexivity ] ].
Qed.

(** X9. On the parts of a finite input nothing that [to_float] or the sum
    of line 116 computes is rounded: the significand quotient, the power of
    two and their product are binary64 numbers for both parts, and so are
    the two values and their sum. *)
Theorem finite_parts_never_round (bits : Z) :
  exp_field bits <> 255 ->
  steps_exact (high bits) /\ steps_exact (low bits)
  /\ exists vh vl : Q,
       numeric (E9S12.to_float (high bits)) = Some vh
       /\ numeric (E9S12.to_float (low bits)) = Some vl
       /\ binary64_exact vh /\ binary64_exact vl
       /\ binary64_exact (vh + vl).
Proof.
  intros Fin.
  destruct (part_widths bits) as [[Eh Sh] [El Sl]].
  split; [ exact (to_float_steps_binary64 (high bits) Sh Eh) | ].
  split; [ exact (to_float_steps_binary64 (low bits) Sl El) | ].
  destruct (parts_numeric bits Fin) as (vh & vl & Hh & Hl & Vh & Vl).
  destruct (reconstruction_exact bits Fin) as (vh' & vl' & Hh' & Hl' & Sum).
  rewrite Hh in Hh'. rewrite Hl in Hl'.
  injection Hh' as <-. injection Hl' as <-.
  pose proof (split_sig_range (sig24 bits)) as [Rh Rl].
  pose proof (exp_field_range bits) as R.
  exists vh, vl. split; [ exact Hh | split; [ exact Hl | ] ].
  split; [ | split ].
  - apply (binary64_exact_eq _ _ (Qeq_sym _ _ Vh)).
    apply binary64_with_sign; lia.
  - apply (binary64_exact_eq _ _ (Qeq_sym _ _ Vl)).
    apply binary64_with_sign; lia.
  - apply (binary64_exact_eq _ _ (Qeq_sym _ _ Sum)).
    apply fp32_value_binary64.
Qed.

Lemma finite_parts_never_round_witness :
  exp_field 0x40490FDB <> 255
  /\ steps_exact (high 0x40490FDB) /\ steps_exact (low 0x40490FDB)
  /\ exists vh vl : Q,
       numeric (E9S12.to_float (high 0x40490FDB)) = Some vh
       /\ numeric (E9S12.to_float (low 0x40490FDB)) = Some vl
       /\ binary64_exact vh /\ binary64_exact vl
       /\ binary64_exact (vh + vl).
Proof.
  assert (Fin : exp_field 0x40490FDB <> 255) by (vm_compute; discriminate).
  split; [ exact Fin | exact (finite_parts_never_round 0x40490FDB Fin) ].
Defined.

(** ** The sign field *)

(** X10. For every input, the specials included, the two parts carry the
    same sign field, it is the top bit of the pattern, and it is 0 or 1. *)
Theorem parts_share_sign_bit (bits : Z) :
  E9S12.sign (high bits) = sign_field bits
  /\ E9S12.sign (low bits) = sign_field bits
  /\ (sign_field bits = 0 \/ sign_field bits = 1)
  /\ sign_field bits = Z.b2z (Z.testbit bits 31).
Proof.
  unfold high, low. rewrite decomposition_fields. cbv zeta.
  pose proof (sign_field_range bits) as R.
  assert (T : sign_field bits = Z.b2z (Z.testbit bits 31)).
  { unfold sign_field. rewrite Z.testbit_spec' by lia. reflexivity. }
  destruct ((exp_field bits =? 0) && (frac_field bits =? 0));
    [ cbn; repeat split; (lia || exact T) | ].
  destruct ((exp_field bits =? 255) && (frac_field bits =? 0));
    [ cbn; repeat split; (lia || exact T) | ].
  destruct ((exp_field bits =? 255) && negb (frac_field bits =? 0));
    [ cbn; repeat split; (lia || exact T) | ].
  cbn [fst snd E9S12.sign]. repeat split; (lia || exact T).
Qed.
